(** * arsenal_gear.dist_funcs: the [ProbDistFunc] base class

    A shallow embedding of [src/arsenal_gear/dist_funcs/__init__.py].

    - numpy's [float64] is IEEE 754 binary64, taken from the Standard
      Library's executable specification [spec_float] (one NaN, signed
      zeros and infinities, round to nearest even);
    - the instance is its attribute dictionary, a [gmap] from attribute
      names to values; numpy arrays live in a store and are passed by
      address, so that the in-place write of [__call__] and the arrays
      it allocates are visible;
    - methods are computations in a state and exception monad. *)

From Stdlib Require Import ZArith.
From Stdlib Require Import Floats.SpecFloat.
From stdpp Require Import gmap strings list fin_maps.

(** ** IEEE 754 binary64 *)

Module F64.

Definition prec : Z := 53.
Definition emax : Z := 1024.

(** [of_Z m e] is the double nearest to [m * 2^e]. *)
Definition of_Z (m e : Z) : spec_float := binary_normalize prec emax m e false.

Definition zero : spec_float := S754_zero false.
Definition one : spec_float := of_Z 1 0.
Definition nan : spec_float := S754_nan.
Definition infinity : spec_float := S754_infinity false.
Definition neg_infinity : spec_float := S754_infinity true.

(** The literals of the examples: 0.5, 1.5, 2.0 and 2.5. *)
Definition half : spec_float := of_Z 1 (-1).
Definition three_halves : spec_float := of_Z 3 (-1).
Definition two : spec_float := of_Z 2 0.
Definition five_halves : spec_float := of_Z 5 (-1).

Definition sub : spec_float → spec_float → spec_float := SFsub prec emax.
Definition div : spec_float → spec_float → spec_float := SFdiv prec emax.

(** Python's [a < b], [a > b] and [a == b] on floats. *)
Definition lt (a b : spec_float) : bool := SFltb a b.
Definition gt (a b : spec_float) : bool := SFltb b a.
Definition eq (a b : spec_float) : bool := SFeqb a b.

Definition is_nan (a : spec_float) : bool :=
  match a with S754_nan => true | _ => false end.

Definition is_zero (a : spec_float) : bool :=
  match a with S754_zero _ => true | _ => false end.

(** Neither infinite nor NaN. *)
Definition is_finite (a : spec_float) : bool :=
  match a with S754_zero _ | S754_finite _ _ _ => true | _ => false end.

End F64.

(** ** Objects, arrays and effects *)

(** Address of a numpy array in the store. *)
Definition loc := nat.

Inductive exn :=
  | AttributeError (name : string)
  | IndexError
  | TypeError.

Inductive result (A : Type) :=
  | Ok (a : A)
  | Raise (e : exn).
Arguments Ok {A} a.
Arguments Raise {A} e.

(** [attrs] is [self.__dict__]; [heap] holds the float arrays that are
    alive, an array's address being its index; [norm_evals] counts the
    calls of [self.normalization()] made so far (a ghost counter: no
    operation reads it). *)
Record world := World {
  attrs : gmap string spec_float;
  heap : list (list spec_float);
  norm_evals : nat
}.

Definition with_attrs (w : world) (a : gmap string spec_float) : world :=
  {| attrs := a; heap := heap w; norm_evals := norm_evals w |}.

Definition with_heap (w : world) (h : list (list spec_float)) : world :=
  {| attrs := attrs w; heap := h; norm_evals := norm_evals w |}.

(** A computation runs in a world and leaves a world, also when it
    raises. *)
Definition M (A : Type) : Type := world → result A * world.

#[export] Instance M_ret : MRet M := λ A a w, (Ok a, w).

#[export] Instance M_bind : MBind M := λ A B f m w,
  match m w with
  | (Ok a, w') => f a w'
  | (Raise e, w') => (Raise e, w')
  end.

Definition raise {A : Type} (e : exn) : M A := λ w, (Raise e, w).

(** [self.name] *)
Definition getattr (name : string) : M spec_float := λ w,
  match attrs w !! name with
  | Some v => (Ok v, w)
  | None => (Raise (AttributeError name), w)
  end.

(** [self.name = v] *)
Definition setattr (name : string) (v : spec_float) : M unit := λ w,
  (Ok tt, with_attrs w (<[name:=v]> (attrs w))).

(** Dereference an array argument. An argument that is no array has
    no attribute [shape], the first thing [prob] asks of it; the later
    operations are reached with arrays only. *)
Definition load (x : loc) : M (list spec_float) := λ w,
  match heap w !! x with
  | Some xs => (Ok xs, w)
  | None => (Raise (AttributeError "shape"), w)
  end.

(** A new array, at a new address. *)
Definition alloc (xs : list spec_float) : M loc := λ w,
  (Ok (length (heap w)), with_heap w (heap w ++ [xs])).

(** Overwrite the array at [x] in place. *)
Definition store (x : loc) (xs : list spec_float) : M unit := λ w,
  (Ok tt, with_heap w (<[x:=xs]> (heap w))).

(** The ghost step that records one call of [self.normalization()]. *)
Definition tick_norm : M unit := λ w,
  (Ok tt, {| attrs := attrs w; heap := heap w; norm_evals := S (norm_evals w) |}).

(** *** The numpy operations the module uses (one-dimensional arrays) *)

(** [x.shape] *)
Definition np_shape (x : loc) : M nat := xs ← load x; mret (length xs).

(** [np.ones(shape)] *)
Definition np_ones (shape : nat) : M loc := alloc (replicate shape F64.one).

(** [x < v] and [x > v]: a boolean array, a temporary of the
    expression that nothing else can reach. *)
Definition np_less (x : loc) (v : spec_float) : M (list bool) :=
  xs ← load x; mret ((λ a, F64.lt a v) <$> xs).

Definition np_greater (x : loc) (v : spec_float) : M (list bool) :=
  xs ← load x; mret ((λ a, F64.gt a v) <$> xs).

(** [np.logical_or(a, b)] *)
Definition np_logical_or (a b : list bool) : list bool := zip_with orb a b.

(** [p[mask] = v] visits the indices in order and writes [v] where the
    mask is set. *)
Fixpoint setitem_from (i : nat) (mask : list bool) (v : spec_float)
    (p : list spec_float) : list spec_float :=
  match mask with
  | [] => p
  | b :: mask' => setitem_from (S i) mask' v (if b then <[i:=v]> p else p)
  end.

(** numpy refuses a boolean index whose length is not the array's,
    except an empty one, which it takes on an array of any length and
    which selects nothing. *)
Definition np_setitem_mask (p : loc) (mask : list bool) (v : spec_float) : M unit :=
  ps ← load p;
  if decide (length mask = length ps)
  then store p (setitem_from 0 mask v ps)
  else if decide (length mask = 0)
  then mret tt
  else raise IndexError.

(** [p / v]: a new array. Under numpy's default error state a division
    by zero warns and produces an infinity or a NaN. *)
Definition np_true_divide (p : loc) (v : spec_float) : M loc :=
  ps ← load p; alloc ((λ a, F64.div a v) <$> ps).

(** ** The class *)

(** The two methods a subclass may override. *)
Record klass := Klass {
  normalization : M spec_float;
  prob : loc → M loc
}.

(** The base class. *)
Definition ProbDistFunc : klass := {|
  normalization :=
    hi ← getattr "max";
    lo ← getattr "min";
    mret (F64.sub hi lo);
  prob := λ x,
    shape ← np_shape x;
    np_ones shape
|}.

(** [self.normalization()]: the call is recorded, then dispatched to
    the class of the instance. *)
Definition self_normalization (C : klass) : M spec_float :=
  tick_norm;; normalization C.

(** The integer 1 that [__init__] stores is the double 1.0 here, as
    are the integer bounds of the examples: numpy converts them to
    that double wherever they meet an array. *)
Definition __init__ (C : klass) (pdf_min pdf_max : spec_float)
    (normalized : bool) : M unit :=
  setattr "min" pdf_min;;
  setattr "max" pdf_max;;
  if normalized then
    n ← self_normalization C;
    setattr "norm" n
  else
    setattr "norm" F64.one.

Definition __call__ (C : klass) (x : loc) : M loc :=
  p ← prob C x;
  lo ← getattr "min";
  below ← np_less x lo;
  hi ← getattr "max";
  above ← np_greater x hi;
  np_setitem_mask p (np_logical_or below above) F64.zero;;
  n ← getattr "norm";
  np_true_divide p n.

(** ** Observations *)

(** The array a computation returns, when it returns normally. *)
Definition returned (m : M loc) (w : world) : option (list spec_float) :=
  match m w with
  | (Ok l, w') => heap w' !! l
  | (Raise _, _) => None
  end.

(** The exception a computation raises, when it raises one. *)
Definition raised {A : Type} (m : M A) (w : world) : option exn :=
  match m w with
  | (Ok _, _) => None
  | (Raise e, _) => Some e
  end.

(** The default of [__init__]'s parameter [normalized]. *)
Definition normalized_default : bool := false.

(** [ProbDistFunc(pdf_min, pdf_max, normalized)] for class [C]: a new
    object, then [__init__]; [h] holds the arrays that exist already. *)
Definition construct (C : klass) (pdf_min pdf_max : spec_float)
    (normalized : bool) (h : list (list spec_float)) : result unit * world :=
  __init__ C pdf_min pdf_max normalized {| attrs := ∅; heap := h; norm_evals := 0 |}.

(** The instance in world [w] has these three attributes. *)
Definition self_is (w : world) (lo hi n : spec_float) : Prop :=
  attrs w !! "min" = Some lo ∧ attrs w !! "max" = Some hi ∧
  attrs w !! "norm" = Some n.

(** What [__call__] does to one element: [xi] the input value, [pi]
    the value [prob] gave for it. *)
Definition outside (lo hi xi : spec_float) : bool :=
  F64.lt xi lo || F64.gt xi hi.

Definition mask_elem (lo hi xi pi : spec_float) : spec_float :=
  if outside lo hi xi then F64.zero else pi.

(** A lower bound nothing is below, and an upper bound nothing is
    above: the infinity on that side, or NaN. *)
Definition open_below (lo : spec_float) : bool :=
  match lo with S754_infinity true | S754_nan => true | _ => false end.

Definition open_above (hi : spec_float) : bool :=
  match hi with S754_infinity false | S754_nan => true | _ => false end.

(** The instance in world [w] has its three attributes. *)
Definition initialized (w : world) : Prop :=
  is_Some (attrs w !! "min") ∧ is_Some (attrs w !! "max") ∧
  is_Some (attrs w !! "norm").

(** ** Subclasses

    A class [C] is taken through the contract of its two extension
    points: [prob] reads its argument and returns a new array of the
    same length, computed by [density] from the argument's values and
    the instance's attributes, and touches nothing else;
    [normalization] returns [norm_const] of the attributes and touches
    nothing. The values of [density] and [norm_const] are arbitrary. *)
Record Implements (C : klass)
    (density : gmap string spec_float → list spec_float → list spec_float)
    (norm_const : gmap string spec_float → spec_float) : Prop := {
  prob_contract : ∀ w x,
    prob C x w = (xs ← load x; alloc (density (attrs w) xs)) w;
  density_length : ∀ a xs, length (density a xs) = length xs;
  normalization_contract : ∀ w,
    is_Some (attrs w !! "min") → is_Some (attrs w !! "max") →
    normalization C w = (Ok (norm_const (attrs w)), w)
}.

(** The base class's density and normalization constant. *)
Definition uniform_density (_ : gmap string spec_float)
    (xs : list spec_float) : list spec_float :=
  replicate (length xs) F64.one.

Definition uniform_norm (a : gmap string spec_float) : spec_float :=
  F64.sub (default F64.nan (a !! "max")) (default F64.nan (a !! "min")).

(** A subclass whose normalization hook returns zero (the density is
    the base class's). *)
Definition Degenerate : klass := {|
  normalization := mret F64.zero;
  prob := prob ProbDistFunc
|}.

(** A subclass whose [prob] hands its argument back instead of a new
    array. It is outside the contract above; it shows what the store
    is for. *)
Definition InPlace : klass := {|
  normalization := normalization ProbDistFunc;
  prob := λ x, mret x
|}.

(** A subclass whose [prob] returns an empty array whatever its
    argument: outside the contract too. *)
Definition Short : klass := {|
  normalization := normalization ProbDistFunc;
  prob := λ _, alloc []
|}.

(** A subclass whose [prob] returns [np.ones(1)] whatever its
    argument: outside the contract as well. *)
Definition OneValue : klass := {|
  normalization := normalization ProbDistFunc;
  prob := λ _, np_ones 1
|}.

(** ** The evaluation contract in the specification's words

    "compute p = rawDensity(x) elementwise; for every index i where
    x[i] < lowerBound or x[i] > upperBound, force p[i] = 0; divide
    every element of p by the stored normalization constant; return
    the resulting sequence". *)
Definition evaluate (rawDensity : list spec_float → list spec_float)
    (lowerBound upperBound normalizationConstant : spec_float)
    (x : list spec_float) : list spec_float :=
  let p := rawDensity x in
  let forced :=
    imap (λ i pi,
      match x !! i with
      | Some xi =>
          if F64.lt xi lowerBound || F64.gt xi upperBound then F64.zero else pi
      | None => pi
      end) p in
  (λ pi, F64.div pi normalizationConstant) <$> forced.

(** ** Invocation

    [obj(x)] runs the [__call__] of the object's class.
    [obj.__call__(x)] looks the name up first: an instance attribute
    of that name hides the method, and the attributes hold floats,
    which are not callable; without one the class's method is found. *)
Definition call_operator (C : klass) (x : loc) : M loc := __call__ C x.

Definition call_by_name (C : klass) (x : loc) : M loc := λ w,
  match attrs w !! "__call__" with
  | Some _ => (Raise TypeError, w)
  | None => __call__ C x w
  end.

(** ** Use of an instance after its construction *)

Inductive action :=
  | SetMin (v : spec_float)       (* obj.min = v *)
  | SetMax (v : spec_float)       (* obj.max = v *)
  | Call (x : loc).               (* obj(x) *)

Definition perform (C : klass) (a : action) : M unit :=
  match a with
  | SetMin v => setattr "min" v
  | SetMax v => setattr "max" v
  | Call x => __call__ C x;; mret tt
  end.

(** The world after a sequence of actions; an action that raises
    leaves the world it reached, and the next one goes on from it. *)
Fixpoint after (C : klass) (acts : list action) (w : world) : world :=
  match acts with
  | [] => w
  | a :: acts' => after C acts' (snd (perform C a w))
  end.

(** A computation that writes no attribute and does not call
    [normalization], whether it returns or raises. *)
Definition frames {A : Type} (m : M A) : Prop :=
  ∀ w, attrs (snd (m w)) = attrs w ∧ norm_evals (snd (m w)) = norm_evals w.

(** * Properties *)

(** ** Order of the doubles *)

Section Order.

Ltac cmp_split :=
  repeat match goal with
  | H : context [Z.compare ?a ?b] |- _ =>
      destruct (Z.compare_spec a b); try subst; simpl in H
  | |- context [Z.compare ?a ?b] =>
      destruct (Z.compare_spec a b); try subst; simpl
  | H : context [Pos.compare_cont Eq ?a ?b] |- _ =>
      change (Pos.compare_cont Eq a b) with (Pos.compare a b) in *;
      destruct (Pos.compare_spec a b); try subst; simpl in H
  | |- context [Pos.compare_cont Eq ?a ?b] =>
      change (Pos.compare_cont Eq a b) with (Pos.compare a b) in *;
      destruct (Pos.compare_spec a b); try subst; simpl
  end.

Ltac float_cases :=
  unfold F64.lt, F64.gt, F64.eq, F64.is_nan, SFltb, SFeqb, SFcompare;
  intros;
  repeat match goal with
  | x : spec_float |- _ => destruct x
  | b : bool |- _ => destruct b
  end;
  simpl in *; try done; cmp_split; try done; try lia.

Lemma eq_not_lt (a b : spec_float) : F64.eq a b = true → F64.lt a b = false.
Proof. unfold F64.eq, F64.lt, SFeqb, SFltb. by destruct (SFcompare a b) as [[]|]. Qed.

Lemma eq_not_gt (a b : spec_float) : F64.eq a b = true → F64.gt a b = false.
Proof. float_cases. Qed.

Lemma lt_eq_r (a b c : spec_float) :
  F64.eq b c = true → F64.lt a c = false → F64.lt a b = false.
Proof. float_cases. Qed.

Lemma lt_eq_l (a b c : spec_float) :
  F64.eq a b = true → F64.lt b c = false → F64.lt a c = false.
Proof. float_cases. Qed.

Lemma between_not_inverted (lo hi x : spec_float) :
  F64.lt x lo = false → F64.lt hi x = false → F64.is_nan x = false →
  F64.lt hi lo = false.
Proof. float_cases. Qed.

End Order.

(** ** The masked assignment *)

Section Masking.

(** The index loop of [p[mask] = v], once the indices below [i] are done. *)
Lemma setitem_from_app (v : spec_float) (mask : list bool) :
  ∀ (pre rest : list spec_float),
    length mask = length rest →
    setitem_from (length pre) mask v (pre ++ rest)
    = pre ++ zip_with (λ (b : bool) a, if b then v else a) mask rest.
Proof.
  induction mask as [|b mask IH]; intros pre rest Hlen.
  - destruct rest; [|done]. simpl. by rewrite app_nil_r.
  - destruct rest as [|a rest]; [done|]. simpl in Hlen.
    cbn [setitem_from zip_with].
    replace (if b then <[length pre:=v]> (pre ++ a :: rest) else pre ++ a :: rest)
      with ((pre ++ [if b then v else a]) ++ rest).
    + replace (S (length pre)) with (length (pre ++ [if b then v else a]))
        by (rewrite length_app; simpl; lia).
      rewrite IH by lia. by rewrite <- app_assoc.
    + rewrite <- app_assoc. destruct b; [|done].
      by rewrite insert_app_r_alt, Nat.sub_diag by lia.
Qed.

Lemma setitem_mask_zip (v : spec_float) (mask : list bool) (p : list spec_float) :
  length mask = length p →
  setitem_from 0 mask v p = zip_with (λ (b : bool) a, if b then v else a) mask p.
Proof. intros Hlen. by apply (setitem_from_app v mask [] p). Qed.

Lemma masked_zip (lo hi : spec_float) (xs p : list spec_float) :
  zip_with (λ (b : bool) a, if b then F64.zero else a)
    (np_logical_or ((λ a, F64.lt a lo) <$> xs) ((λ a, F64.gt a hi) <$> xs)) p
  = zip_with (mask_elem lo hi) xs p.
Proof.
  revert p. induction xs as [|xi xs IH]; intros [|pi p]; try done.
  cbn. by rewrite <- IH.
Qed.

End Masking.

(** ** Running the methods *)

Section Run.

Lemma bind_run {A B : Type} (m : M A) (f : A → M B) (w w' : world) (a : A) :
  m w = (Ok a, w') → (m ≫= f) w = f a w'.
Proof. intros H. unfold mbind, M_bind. by rewrite H. Qed.

Lemma bind_raise {A B : Type} (m : M A) (f : A → M B) (w w' : world) (e : exn) :
  m w = (Raise e, w') → (m ≫= f) w = (Raise e, w').
Proof. intros H. unfold mbind, M_bind. by rewrite H. Qed.

Lemma getattr_run (name : string) (w : world) (v : spec_float) :
  attrs w !! name = Some v → getattr name w = (Ok v, w).
Proof. intros H. unfold getattr. by rewrite H. Qed.

Lemma load_run (x : loc) (w : world) (xs : list spec_float) :
  heap w !! x = Some xs → load x w = (Ok xs, w).
Proof. intros H. unfold load. by rewrite H. Qed.

(** The base class meets the contract of its extension points. *)
Lemma base_class : Implements ProbDistFunc uniform_density uniform_norm.
Proof.
  split.
  - intros w x. cbn. unfold np_shape, np_ones, uniform_density, load, mbind, M_bind.
    by destruct (heap w !! x).
  - intros a xs. apply length_replicate.
  - intros w [lo Hlo] [hi Hhi]. cbn.
    rewrite (bind_run _ _ w w hi) by by apply getattr_run.
    rewrite (bind_run _ _ w w lo) by by apply getattr_run.
    unfold uniform_norm. by rewrite Hlo, Hhi.
Qed.

(** One run of [__call__] on an array: two arrays are allocated, the
    one [prob] returns, masked in place, and the quotient. *)
Lemma call_run (C : klass) density norm_const (w : world) (x : loc)
    (xs : list spec_float) (lo hi n : spec_float) :
  Implements C density norm_const →
  self_is w lo hi n →
  heap w !! x = Some xs →
  let p := zip_with (mask_elem lo hi) xs (density (attrs w) xs) in
  __call__ C x w =
    (Ok (S (length (heap w))),
     with_heap w (heap w ++ [p; (λ a, F64.div a n) <$> p])).
Proof.
  intros HC (Hlo & Hhi & Hn) Hx p. unfold __call__.
  set (h := heap w). set (p0 := density (attrs w) xs).
  assert (Hp0 : length p0 = length xs) by apply HC.
  set (w1 := with_heap w (h ++ [p0])).
  assert (Hx1 : heap w1 !! x = Some xs) by by apply lookup_app_l_Some.
  rewrite (bind_run _ _ w w1 (length h)).
  2:{ rewrite (prob_contract _ _ _ HC). by rewrite (bind_run _ _ w w xs) by by apply load_run. }
  rewrite (bind_run _ _ w1 w1 lo) by by apply getattr_run.
  rewrite (bind_run _ _ w1 w1 _) by (unfold np_less; by rewrite (bind_run _ _ w1 w1 xs) by by apply load_run).
  rewrite (bind_run _ _ w1 w1 hi) by by apply getattr_run.
  rewrite (bind_run _ _ w1 w1 _) by (unfold np_greater; by rewrite (bind_run _ _ w1 w1 xs) by by apply load_run).
  set (w2 := with_heap w (h ++ [p])).
  rewrite (bind_run _ _ w1 w2 tt).
  2:{ unfold np_setitem_mask.
      rewrite (bind_run _ _ w1 w1 p0) by (apply load_run; apply list_lookup_middle; done).
      rewrite decide_True.
      2:{ unfold np_logical_or. rewrite length_zip_with, !length_fmap. lia. }
      unfold store, w2, w1, with_heap. cbn. f_equal. f_equal.
      rewrite setitem_mask_zip.
      2:{ unfold np_logical_or. rewrite length_zip_with, !length_fmap. lia. }
      rewrite masked_zip. fold p.
      by rewrite insert_app_r_alt, Nat.sub_diag by lia. }
  rewrite (bind_run _ _ w2 w2 n) by by apply getattr_run.
  unfold np_true_divide.
  rewrite (bind_run _ _ w2 w2 p) by (apply load_run; apply list_lookup_middle; done).
  unfold alloc, w2, with_heap. cbn.
  rewrite length_app. cbn. rewrite <- app_assoc. cbn.
  do 2 f_equal. lia.
Qed.

End Run.

(** ** The array [__call__] returns *)

Section Call.

Context (C : klass)
  (density : gmap string spec_float → list spec_float → list spec_float)
  (norm_const : gmap string spec_float → spec_float)
  (HC : Implements C density norm_const).

(** The array [__call__] returns. *)
Lemma call_returned (w : world) (x : loc) (xs : list spec_float) (lo hi n : spec_float) :
  self_is w lo hi n →
  heap w !! x = Some xs →
  returned (__call__ C x) w =
    Some ((λ a, F64.div a n) <$> zip_with (mask_elem lo hi) xs (density (attrs w) xs)).
Proof.
  intros Hself Hx. unfold returned.
  rewrite (call_run C density norm_const w x xs lo hi n HC Hself Hx). cbn.
  rewrite lookup_app_r by lia.
  by replace (S (length (heap w)) - length (heap w)) with 1 by lia.
Qed.

(** Element [i] of the returned array. *)
Lemma call_returned_elem (w : world) (x : loc) (xs : list spec_float)
    (lo hi n : spec_float) (i : nat) (xi : spec_float) :
  self_is w lo hi n →
  heap w !! x = Some xs →
  xs !! i = Some xi →
  ∃ out pi,
    returned (__call__ C x) w = Some out ∧
    density (attrs w) xs !! i = Some pi ∧
    out !! i = Some (F64.div (mask_elem lo hi xi pi) n).
Proof.
  intros Hself Hx Hi.
  destruct (lookup_lt_is_Some_2 (density (attrs w) xs) i) as [pi Hpi].
  { rewrite (density_length _ _ _ HC). by apply lookup_lt_Some with xi. }
  eexists _, pi. split; [by apply call_returned|]. split; [done|].
  by rewrite list_lookup_fmap, lookup_zip_with, Hi, Hpi.
Qed.

End Call.

(** The specification's wording of the evaluation, element by element. *)
Lemma evaluate_zip (rawDensity : list spec_float → list spec_float)
    (lo hi n : spec_float) (xs : list spec_float) :
  length (rawDensity xs) = length xs →
  evaluate rawDensity lo hi n xs
  = (λ a, F64.div a n) <$> zip_with (mask_elem lo hi) xs (rawDensity xs).
Proof.
  intros Hlen. unfold evaluate. f_equal.
  apply list_eq. intros i.
  rewrite list_lookup_imap, lookup_zip_with.
  destruct (rawDensity xs !! i) as [pi|] eqn:Hpi; cbn.
  - destruct (lookup_lt_is_Some_2 xs i) as [xi Hxi].
    { rewrite <- Hlen. by apply lookup_lt_Some with pi. }
    by rewrite Hxi.
  - by destruct (xs !! i).
Qed.

(** Division of a zero. *)
Lemma div_zero_l (s : bool) (n : spec_float) :
  F64.is_zero n = false → F64.is_nan n = false →
  F64.eq (F64.div (S754_zero s) n) F64.zero = true.
Proof. by destruct n as [| [] | | [] ? ?], s. Qed.

Lemma div_by_zero (a n : spec_float) :
  F64.is_zero n = true → F64.is_finite (F64.div a n) = false.
Proof. by destruct n, a. Qed.

(** A zero divided by a zero or by NaN is NaN. *)
Lemma zero_div_zero_or_nan (s : bool) (n : spec_float) :
  F64.is_zero n || F64.is_nan n = true →
  F64.is_nan (F64.div (S754_zero s) n) = true.
Proof. by destruct n. Qed.

(** ** Position of a value with respect to the bounds *)

(** With inverted bounds every value that is a number is outside. *)
Lemma inverted_outside (lo hi xi : spec_float) :
  F64.gt lo hi = true → F64.is_nan xi = false → outside lo hi xi = true.
Proof.
  intros Hinv Hnan. unfold outside.
  destruct (F64.lt xi lo) eqn:Hlo; [done|].
  destruct (F64.gt xi hi) eqn:Hhi; [done|].
  pose proof (between_not_inverted lo hi xi Hlo Hhi Hnan) as Hord.
  unfold F64.gt, F64.lt in *. congruence.
Qed.

(** A value equal to a bound is inside, unless the bounds are inverted. *)
Lemma bound_inside (lo hi xi : spec_float) :
  F64.gt lo hi = false →
  F64.eq xi lo || F64.eq xi hi = true →
  outside lo hi xi = false.
Proof.
  intros Hord Heq. unfold outside, F64.gt in *.
  apply orb_true_iff in Heq as [Heq|Heq]; apply orb_false_iff; split.
  - by apply eq_not_lt.
  - by apply (lt_eq_r hi xi lo).
  - by apply (lt_eq_l xi hi lo).
  - by apply (eq_not_gt xi hi).
Qed.

(** ** What a call and an assignment leave alone *)

Section Frames.

Lemma frames_ret {A : Type} (a : A) : frames (mret a : M A).
Proof. done. Qed.

Lemma frames_raise {A : Type} (e : exn) : frames (raise e : M A).
Proof. done. Qed.

Lemma frames_bind {A B : Type} (m : M A) (f : A → M B) :
  frames m → (∀ a, frames (f a)) → frames (m ≫= f).
Proof.
  intros Hm Hf w. unfold mbind, M_bind.
  destruct (Hm w) as [Ha Hn]. destruct (m w) as [[a|e] w']; cbn in *; [|done].
  destruct (Hf a w') as [Ha' Hn']. by rewrite Ha', Hn'.
Qed.

Lemma frames_getattr (name : string) : frames (getattr name).
Proof. intros w. unfold getattr. by destruct (attrs w !! name). Qed.

Lemma frames_load (x : loc) : frames (load x).
Proof. intros w. unfold load. by destruct (heap w !! x). Qed.

Lemma frames_alloc (xs : list spec_float) : frames (alloc xs).
Proof. done. Qed.

Lemma frames_store (x : loc) (xs : list spec_float) : frames (store x xs).
Proof. done. Qed.

End Frames.

Section Frame.

Context (C : klass)
  (density : gmap string spec_float → list spec_float → list spec_float)
  (norm_const : gmap string spec_float → spec_float)
  (HC : Implements C density norm_const).

(** [__call__] writes no attribute and does not call
    [normalization], whether it returns or raises. *)
Lemma call_frame (x : loc) : frames (__call__ C x).
Proof.
  assert (Hprob : frames (prob C x)).
  { intros w. rewrite (prob_contract _ _ _ HC).
    apply (frames_bind (load x) (λ xs, alloc (density (attrs w) xs))).
    - apply frames_load.
    - intros xs. apply frames_alloc. }
  unfold __call__, np_setitem_mask, np_true_divide, np_less, np_greater.
  repeat first
    [ apply frames_bind; [|intros ?]
    | apply Hprob | apply frames_getattr | apply frames_load
    | apply frames_alloc | apply frames_store | apply frames_raise
    | apply frames_ret | case_decide ].
Qed.

Lemma perform_frame (a : action) (w : world) :
  attrs (snd (perform C a w)) !! "norm" = attrs w !! "norm" ∧
  norm_evals (snd (perform C a w)) = norm_evals w.
Proof.
  destruct a as [v|v|x]; cbn.
  - by rewrite lookup_insert_ne.
  - by rewrite lookup_insert_ne.
  - destruct (call_frame x w) as [Ha Hn].
    unfold mbind, M_bind, mret, M_ret.
    destruct (__call__ C x w) as [[l|e] w']; cbn in *; by rewrite Ha.
Qed.

Lemma after_frame (acts : list action) (w : world) :
  attrs (after C acts w) !! "norm" = attrs w !! "norm" ∧
  norm_evals (after C acts w) = norm_evals w.
Proof.
  revert w. induction acts as [|a acts IH]; intros w; [done|]. cbn.
  destruct (IH (snd (perform C a w))) as [-> ->]. apply perform_frame.
Qed.

(** What [__init__] leaves. *)
Lemma construct_run (pdf_min pdf_max : spec_float) (normalized : bool)
    (h : list (list spec_float)) :
  let a := <["max":=pdf_max]> (<["min":=pdf_min]> (∅ : gmap string spec_float)) in
  construct C pdf_min pdf_max normalized h =
    (Ok tt,
     {| attrs := <["norm":=if normalized then norm_const a else F64.one]> a;
        heap := h;
        norm_evals := if normalized then 1 else 0 |}).
Proof.
  intros a. unfold construct, __init__, self_normalization, mbind, M_bind,
    setattr, tick_norm. cbn.
  destruct normalized; [|done].
  rewrite (normalization_contract _ _ _ HC); [done| |]; cbn; fold a.
  - exists pdf_min. unfold a. by rewrite lookup_insert_ne, lookup_insert_eq.
  - exists pdf_max. unfold a. by rewrite lookup_insert_eq.
Qed.

End Frame.

(** * The claims *)

(** C1, amended: for every instance (of the base class or of a subclass,
    whatever values its [prob] returns) and every input array, the
    element of [__call__(x)] at an index whose input value is strictly
    below [self.min] or strictly above [self.max] is 0 divided by the
    stored normalization constant: it compares equal to 0 when that
    constant is neither zero nor NaN, and it is NaN when the constant
    is zero or NaN. *)
Theorem outside_bounds_is_zero (C : klass) density norm_const (w : world)
    (x : loc) (xs : list spec_float) (lo hi n : spec_float) (i : nat)
    (xi : spec_float) :
  Implements C density norm_const →
  self_is w lo hi n →
  heap w !! x = Some xs →
  xs !! i = Some xi →
  outside lo hi xi = true →
  ∃ out,
    returned (__call__ C x) w = Some out ∧
    out !! i = Some (F64.div F64.zero n) ∧
    (F64.is_zero n = false → F64.is_nan n = false →
     F64.eq (F64.div F64.zero n) F64.zero = true) ∧
    (F64.is_zero n || F64.is_nan n = true →
     F64.is_nan (F64.div F64.zero n) = true).
Proof.
  intros HC Hself Hx Hi Hout.
  destruct (call_returned_elem C density norm_const HC w x xs lo hi n i xi)
    as (out & pi & Hret & _ & Hout_i); try done.
  exists out. split; [done|]. split.
  - rewrite Hout_i. unfold mask_elem. by rewrite Hout.
  - split; [apply div_zero_l | apply zero_div_zero_or_nan].
Qed.

Lemma outside_bounds_is_zero_witness :
  ∃ out,
    returned (__call__ ProbDistFunc 0)
      (snd (construct ProbDistFunc F64.zero F64.two true [[F64.five_halves]]))
    = Some out ∧
    out !! 0 = Some (F64.div F64.zero F64.two) ∧
    (F64.is_zero F64.two = false → F64.is_nan F64.two = false →
     F64.eq (F64.div F64.zero F64.two) F64.zero = true) ∧
    (F64.is_zero F64.two || F64.is_nan F64.two = true →
     F64.is_nan (F64.div F64.zero F64.two) = true).
Proof.
  apply (outside_bounds_is_zero ProbDistFunc uniform_density uniform_norm
           _ 0 [F64.five_halves] F64.zero F64.two F64.two 0 F64.five_halves
           base_class);
    by vm_compute.
Defined.

(** C1 as stated fails: [ProbDistFunc(1.0, 1.0, True)] stores the
    normalization constant 0, and [2.0], strictly above the upper bound,
    is masked to 0 and then divided by it: the result is NaN. *)
Lemma outside_bounds_zero_norm_is_nan :
  let w := snd (construct ProbDistFunc F64.one F64.one true [[F64.two]]) in
  attrs w !! "norm" = Some F64.zero ∧
  outside F64.one F64.one F64.two = true ∧
  returned (__call__ ProbDistFunc 0) w = Some [F64.nan] ∧
  F64.eq F64.nan F64.zero = false.
Proof. by vm_compute. Qed.

(** C2: the base class constructed with [pdf_min=0], [pdf_max=2],
    [normalized=True] stores [pdf_max - pdf_min = 2] as its
    normalization constant, and [__call__([0.5, 1.0, 1.5, 2.5])]
    returns [[0.5, 0.5, 0.5, 0.0]]. *)
Theorem uniform_normalized_example :
  let xs := [F64.half; F64.one; F64.three_halves; F64.five_halves] in
  let made := construct ProbDistFunc F64.zero F64.two true [xs] in
  fst made = Ok tt ∧
  attrs (snd made) !! "norm" = Some (F64.sub F64.two F64.zero) ∧
  F64.sub F64.two F64.zero = F64.two ∧
  returned (__call__ ProbDistFunc 0) (snd made)
  = Some [F64.half; F64.half; F64.half; F64.zero].
Proof. by vm_compute. Qed.

(** C7: the base class constructed with [pdf_min=0], [pdf_max=2] and
    [normalized] at its default [False] stores 1 as its normalization
    constant, and [__call__([0.5, 1.0, 1.5, 2.5])] returns
    [[1, 1, 1, 0]]. *)
Theorem uniform_unnormalized_example :
  let xs := [F64.half; F64.one; F64.three_halves; F64.five_halves] in
  let made := construct ProbDistFunc F64.zero F64.two normalized_default [xs] in
  fst made = Ok tt ∧
  attrs (snd made) !! "norm" = Some F64.one ∧
  norm_evals (snd made) = 0 ∧
  returned (__call__ ProbDistFunc 0) (snd made)
  = Some [F64.one; F64.one; F64.one; F64.zero].
Proof. by vm_compute. Qed.

(** C3: for every instance and every input array, the evaluation
    invoked by name, [obj.__call__(x)], and through the call operator,
    [obj(x)], run the same method with the same outcome, and the array
    they return is the one the specification's evaluation describes. *)
Theorem call_by_name_is_call_operator (C : klass) density norm_const
    (w : world) (x : loc) (xs : list spec_float) (lo hi n : spec_float) :
  Implements C density norm_const →
  self_is w lo hi n →
  attrs w !! "__call__" = None →
  heap w !! x = Some xs →
  call_by_name C x w = call_operator C x w ∧
  returned (call_by_name C x) w
  = Some (evaluate (density (attrs w)) lo hi n xs) ∧
  returned (call_operator C x) w
  = Some (evaluate (density (attrs w)) lo hi n xs).
Proof.
  intros HC Hself Hname Hx.
  assert (Hsame : call_by_name C x w = call_operator C x w).
  { unfold call_by_name. by rewrite Hname. }
  split; [done|].
  assert (Hop : returned (call_operator C x) w
                = Some (evaluate (density (attrs w)) lo hi n xs)).
  { unfold call_operator.
    rewrite (call_returned C density norm_const HC w x xs lo hi n) by done.
    by rewrite evaluate_zip by apply HC. }
  split; [|done]. unfold returned in *. by rewrite Hsame.
Qed.

Lemma call_by_name_is_call_operator_witness :
  let xs := [F64.half; F64.five_halves] in
  let w := snd (construct ProbDistFunc F64.zero F64.two true [xs]) in
  call_by_name ProbDistFunc 0 w = call_operator ProbDistFunc 0 w ∧
  returned (call_by_name ProbDistFunc 0) w
  = Some (evaluate (uniform_density (attrs w)) F64.zero F64.two F64.two xs) ∧
  returned (call_operator ProbDistFunc 0) w
  = Some (evaluate (uniform_density (attrs w)) F64.zero F64.two F64.two xs).
Proof.
  apply (call_by_name_is_call_operator ProbDistFunc uniform_density uniform_norm
           _ 0 [F64.half; F64.five_halves] F64.zero F64.two F64.two base_class);
    by vm_compute.
Defined.

(** The method [prob] is not that evaluation: it neither masks nor
    normalizes. *)
Example prob_is_the_raw_density :
  let w := snd (construct ProbDistFunc F64.zero F64.two true [[F64.five_halves]]) in
  returned (prob ProbDistFunc 0) w = Some [F64.one] ∧
  returned (call_operator ProbDistFunc 0) w = Some [F64.zero].
Proof. by vm_compute. Qed.

(** C4, amended: for every instance with inverted bounds
    ([self.min > self.max]) and every input array, every element that
    is not NaN is masked: the result there is 0 divided by the stored
    normalization constant, which compares equal to 0 when that
    constant is neither zero nor NaN. Nothing is raised. *)
Theorem inverted_bounds_mask_numbers (C : klass) density norm_const
    (w : world) (x : loc) (xs : list spec_float) (lo hi n : spec_float)
    (i : nat) (xi : spec_float) :
  Implements C density norm_const →
  self_is w lo hi n →
  heap w !! x = Some xs →
  F64.gt lo hi = true →
  xs !! i = Some xi →
  F64.is_nan xi = false →
  ∃ out,
    returned (__call__ C x) w = Some out ∧
    out !! i = Some (F64.div F64.zero n) ∧
    (F64.is_zero n = false → F64.is_nan n = false →
     F64.eq (F64.div F64.zero n) F64.zero = true).
Proof.
  intros HC Hself Hx Hinv Hi Hnan.
  destruct (call_returned_elem C density norm_const HC w x xs lo hi n i xi)
    as (out & pi & Hret & _ & Hout_i); try done.
  exists out. split; [done|]. split.
  - rewrite Hout_i. unfold mask_elem. by rewrite inverted_outside.
  - apply div_zero_l.
Qed.

Lemma inverted_bounds_mask_numbers_witness :
  let w := snd (construct ProbDistFunc F64.two F64.zero false [[F64.one]]) in
  ∃ out,
    returned (__call__ ProbDistFunc 0) w = Some out ∧
    out !! 0 = Some (F64.div F64.zero F64.one) ∧
    (F64.is_zero F64.one = false → F64.is_nan F64.one = false →
     F64.eq (F64.div F64.zero F64.one) F64.zero = true).
Proof.
  apply (inverted_bounds_mask_numbers ProbDistFunc uniform_density uniform_norm
           _ 0 [F64.one] F64.two F64.zero F64.one 0 F64.one base_class);
    by vm_compute.
Defined.

(** C4 as stated fails twice. [ProbDistFunc(2.0, 0.0)] called on
    [[nan]] returns [[1.0]]: NaN is neither below the lower bound nor
    above the upper one. And the instance of a subclass whose
    normalization hook returns zero, with the same inverted bounds,
    returns NaN at the masked element 1.0. *)
Lemma inverted_bounds_not_zero_everywhere :
  (let w := snd (construct ProbDistFunc F64.two F64.zero false [[F64.nan]]) in
   F64.gt F64.two F64.zero = true ∧
   returned (__call__ ProbDistFunc 0) w = Some [F64.one] ∧
   F64.eq F64.one F64.zero = false) ∧
  (let w := snd (construct Degenerate F64.two F64.zero true [[F64.one]]) in
   returned (__call__ Degenerate 0) w = Some [F64.nan] ∧
   F64.eq F64.nan F64.zero = false).
Proof. by vm_compute. Qed.

(** C6, amended: for every instance whose bounds are not inverted (not
    [self.min > self.max]) and every input array, an element equal to
    [self.min] or to [self.max] is not masked: the result there is
    [prob(x)[i]] divided by the stored normalization constant. *)
Theorem bounds_are_inclusive (C : klass) density norm_const (w : world)
    (x : loc) (xs : list spec_float) (lo hi n : spec_float) (i : nat)
    (xi : spec_float) :
  Implements C density norm_const →
  self_is w lo hi n →
  heap w !! x = Some xs →
  F64.gt lo hi = false →
  xs !! i = Some xi →
  F64.eq xi lo || F64.eq xi hi = true →
  ∃ out pi,
    returned (__call__ C x) w = Some out ∧
    density (attrs w) xs !! i = Some pi ∧
    out !! i = Some (F64.div pi n).
Proof.
  intros HC Hself Hx Hord Hi Heq.
  destruct (call_returned_elem C density norm_const HC w x xs lo hi n i xi)
    as (out & pi & Hret & Hpi & Hout_i); try done.
  exists out, pi. repeat split; try done.
  rewrite Hout_i. unfold mask_elem. by rewrite bound_inside.
Qed.

Lemma bounds_are_inclusive_witness :
  let xs := [F64.zero; F64.two] in
  let w := snd (construct ProbDistFunc F64.zero F64.two true [xs]) in
  ∃ out pi,
    returned (__call__ ProbDistFunc 0) w = Some out ∧
    uniform_density (attrs w) xs !! 1 = Some pi ∧
    out !! 1 = Some (F64.div pi F64.two).
Proof.
  apply (bounds_are_inclusive ProbDistFunc uniform_density uniform_norm
           _ 0 [F64.zero; F64.two] F64.zero F64.two F64.two 1 F64.two base_class);
    by vm_compute.
Defined.

(** C6 as stated fails on inverted bounds: [ProbDistFunc(2.0, 0.0)]
    called on [[2.0]], the lower bound itself, returns [[0.0]] and not
    [prob(x)[0] / norm = 1.0], since 2.0 is above the upper bound. *)
Lemma lower_bound_masked_when_inverted :
  let w := snd (construct ProbDistFunc F64.two F64.zero false [[F64.two]]) in
  attrs w !! "min" = Some F64.two ∧
  F64.eq F64.two F64.two = true ∧
  returned (prob ProbDistFunc 0) w = Some [F64.one] ∧
  attrs w !! "norm" = Some F64.one ∧
  returned (__call__ ProbDistFunc 0) w = Some [F64.zero] ∧
  F64.div F64.one F64.one ≠ F64.zero.
Proof. by vm_compute. Qed.

(** C8: for every instance and every input array of any length, the
    array [__call__] returns has the length of the input, and its element
    at each index is computed from the input's element at that index. *)
Theorem output_length_and_order (C : klass) density norm_const (w : world)
    (x : loc) (xs : list spec_float) (lo hi n : spec_float) :
  Implements C density norm_const →
  self_is w lo hi n →
  heap w !! x = Some xs →
  ∃ out,
    returned (__call__ C x) w = Some out ∧
    length out = length xs ∧
    ∀ i xi, xs !! i = Some xi →
      ∃ pi, density (attrs w) xs !! i = Some pi ∧
            out !! i = Some (F64.div (mask_elem lo hi xi pi) n).
Proof.
  intros HC Hself Hx. eexists. split; [by apply (call_returned C density norm_const HC)|].
  split.
  - rewrite length_fmap, length_zip_with, (density_length _ _ _ HC). lia.
  - intros i xi Hi.
    destruct (call_returned_elem C density norm_const HC w x xs lo hi n i xi)
      as (out & pi & Hret & Hpi & Hout_i); try done.
    exists pi. split; [done|].
    rewrite (call_returned C density norm_const HC w x xs lo hi n) in Hret by done.
    by simplify_eq.
Qed.

Lemma output_length_and_order_witness :
  let xs := [F64.one; F64.five_halves] in
  let w := snd (construct ProbDistFunc F64.zero F64.two true [xs]) in
  ∃ out,
    returned (__call__ ProbDistFunc 0) w = Some out ∧
    length out = length xs ∧
    ∀ i xi, xs !! i = Some xi →
      ∃ pi, uniform_density (attrs w) xs !! i = Some pi ∧
            out !! i = Some (F64.div (mask_elem F64.zero F64.two xi pi) F64.two).
Proof.
  apply (output_length_and_order ProbDistFunc uniform_density uniform_norm
           _ 0 [F64.one; F64.five_halves] F64.zero F64.two F64.two base_class);
    by vm_compute.
Defined.

(** C5: the normalization constant is computed at construction, by one
    call of [normalization()] when [normalized] is true and as 1
    without any call otherwise; assignments to [self.min] and
    [self.max] and calls of the instance, in any number and order,
    leave the stored constant as it is and call [normalization()] no
    more. *)
Theorem norm_is_cached (C : klass) density norm_const
    (pdf_min pdf_max : spec_float) (normalized : bool)
    (h : list (list spec_float)) (acts : list action) :
  Implements C density norm_const →
  let made := construct C pdf_min pdf_max normalized h in
  let at_call := <["max":=pdf_max]> (<["min":=pdf_min]> (∅ : gmap string spec_float)) in
  fst made = Ok tt ∧
  attrs (snd made) !! "norm"
  = Some (if normalized then norm_const at_call else F64.one) ∧
  norm_evals (snd made) = (if normalized then 1 else 0) ∧
  attrs (after C acts (snd made)) !! "norm" = attrs (snd made) !! "norm" ∧
  norm_evals (after C acts (snd made)) = norm_evals (snd made).
Proof.
  intros HC made at_call. unfold made.
  rewrite (construct_run C density norm_const HC). cbn.
  split; [done|]. split; [by rewrite lookup_insert_eq|]. split; [done|].
  apply (after_frame C density norm_const HC).
Qed.

Lemma norm_is_cached_witness :
  let acts := [SetMin F64.one; Call 0; SetMax F64.five_halves; Call 0] in
  let made := construct ProbDistFunc F64.zero F64.two true [[F64.half]] in
  let at_call := <["max":=F64.two]> (<["min":=F64.zero]> (∅ : gmap string spec_float)) in
  fst made = Ok tt ∧
  attrs (snd made) !! "norm" = Some (uniform_norm at_call) ∧
  norm_evals (snd made) = 1 ∧
  attrs (after ProbDistFunc acts (snd made)) !! "norm" = attrs (snd made) !! "norm" ∧
  norm_evals (after ProbDistFunc acts (snd made)) = norm_evals (snd made).
Proof.
  exact (norm_is_cached ProbDistFunc uniform_density uniform_norm
           F64.zero F64.two true [[F64.half]]
           [SetMin F64.one; Call 0; SetMax F64.five_halves; Call 0] base_class).
Defined.

(** C9: constructing a [ProbDistFunc] with any two floats as bounds and
    any flag returns normally, and calling the instance on any array
    returns an array; when the stored normalization constant is a
    zero, every element of that array is an infinity or NaN. *)
Theorem construct_and_call_return (pdf_min pdf_max : spec_float)
    (normalized : bool) (h : list (list spec_float)) (x : loc)
    (xs : list spec_float) :
  h !! x = Some xs →
  ∃ w l w' out n,
    construct ProbDistFunc pdf_min pdf_max normalized h = (Ok tt, w) ∧
    __call__ ProbDistFunc x w = (Ok l, w') ∧
    heap w' !! l = Some out ∧
    attrs w !! "norm" = Some n ∧
    (F64.is_zero n = true → Forall (λ v, F64.is_finite v = false) out).
Proof.
  intros Hx.
  pose proof (construct_run ProbDistFunc uniform_density uniform_norm base_class
                pdf_min pdf_max normalized h) as Hmade. cbn zeta in Hmade.
  eexists _, _, _, _, _. split; [exact Hmade|].
  set (w := {| attrs := _ |}).
  assert (Hself : self_is w pdf_min pdf_max
            (if normalized
             then uniform_norm (<["max":=pdf_max]> (<["min":=pdf_min]> ∅))
             else F64.one)).
  { unfold self_is, w; cbn [attrs]. split_and!; by simplify_map_eq. }
  split; [exact (call_run _ _ _ w x xs _ _ _ base_class Hself Hx)|].
  split.
  { cbn. rewrite lookup_app_r by lia.
    by replace (S (length h) - length h) with 1 by lia. }
  split; [apply Hself|].
  intros Hz. apply Forall_fmap, Forall_forall. intros v _. by apply div_by_zero.
Qed.

Lemma construct_and_call_return_witness :
  ∃ w l w' out n,
    construct ProbDistFunc F64.one F64.one true [[F64.one; F64.two]] = (Ok tt, w) ∧
    __call__ ProbDistFunc 0 w = (Ok l, w') ∧
    heap w' !! l = Some out ∧
    attrs w !! "norm" = Some n ∧
    (F64.is_zero n = true → Forall (λ v, F64.is_finite v = false) out).
Proof.
  apply (construct_and_call_return F64.one F64.one true [[F64.one; F64.two]] 0
           [F64.one; F64.two]).
  reflexivity.
Defined.

(** C10: a call of a base-class instance leaves its input array, every
    other array that existed and the instance's attributes as they
    were: the array that is masked in place is the new one [prob]
    allocated, at an address that was not in use, and the result is a
    second new array. *)
Theorem call_leaves_input (w : world) (x : loc) (xs : list spec_float)
    (lo hi n : spec_float) :
  self_is w lo hi n →
  heap w !! x = Some xs →
  ∃ l w' p out,
    __call__ ProbDistFunc x w = (Ok l, w') ∧
    returned (prob ProbDistFunc x) w = Some (replicate (length xs) F64.one) ∧
    fst (prob ProbDistFunc x w) = Ok (length (heap w)) ∧
    heap w' = heap w ++ [p; out] ∧
    heap w' !! x = Some xs ∧
    l ≠ x ∧
    attrs w' = attrs w ∧
    self_is w' lo hi n.
Proof.
  intros Hself Hx.
  eexists _, _, _, _.
  split; [by apply (call_run ProbDistFunc uniform_density uniform_norm w x xs lo hi n base_class)|].
  assert (Hlt : x < length (heap w)) by by apply lookup_lt_Some with xs.
  cbn. unfold returned, np_shape, np_ones, mbind, M_bind.
  rewrite (load_run x w xs Hx). cbn.
  split; [by rewrite list_lookup_middle|].
  split; [done|]. split; [done|].
  split; [by apply lookup_app_l_Some|].
  split; [lia|]. done.
Qed.

Lemma call_leaves_input_witness :
  let w := snd (construct ProbDistFunc F64.zero F64.two true [[F64.five_halves]]) in
  ∃ l w' p out,
    __call__ ProbDistFunc 0 w = (Ok l, w') ∧
    returned (prob ProbDistFunc 0) w = Some (replicate (length [F64.five_halves]) F64.one) ∧
    fst (prob ProbDistFunc 0 w) = Ok (length (heap w)) ∧
    heap w' = heap w ++ [p; out] ∧
    heap w' !! 0 = Some [F64.five_halves] ∧
    l ≠ 0 ∧
    attrs w' = attrs w ∧
    self_is w' F64.zero F64.two F64.two.
Proof.
  apply (call_leaves_input _ 0 [F64.five_halves] F64.zero F64.two F64.two);
    by vm_compute.
Defined.

(** The store matters: were [prob] to hand back its argument, the mask
    would be written into the caller's array. *)
Example in_place_prob_overwrites_input :
  let w := snd (construct InPlace F64.zero F64.two false [[F64.half; F64.five_halves]]) in
  heap (snd (__call__ InPlace 0 w)) !! 0 = Some [F64.half; F64.zero].
Proof. by vm_compute. Qed.

(** And the length contract of [prob] matters: numpy refuses the mask
    of an input of length 1 as an index into an empty array. *)
Example short_prob_raises :
  let w := snd (construct Short F64.zero F64.two false [[F64.half]]) in
  raised (__call__ Short 0) w = Some IndexError.
Proof. by vm_compute. Qed.

(** * Further properties of the class *)

(** X1: a call can be repeated: a second call on the same array returns
    an array equal to the first call's, and leaves the first call's
    array as it was. *)
Theorem call_twice_same (C : klass) density norm_const (w : world) (x : loc)
    (xs : list spec_float) (lo hi n : spec_float) :
  Implements C density norm_const →
  self_is w lo hi n →
  heap w !! x = Some xs →
  ∃ l w' out,
    __call__ C x w = (Ok l, w') ∧
    heap w' !! l = Some out ∧
    returned (__call__ C x) w' = Some out ∧
    heap (snd (__call__ C x w')) !! l = Some out.
Proof.
  intros HC Hself Hx.
  pose proof (call_run C density norm_const w x xs lo hi n HC Hself Hx) as Hrun.
  cbn zeta in Hrun.
  set (p := zip_with (mask_elem lo hi) xs (density (attrs w) xs)) in *.
  set (w' := with_heap w (heap w ++ [p; (λ a, F64.div a n) <$> p])) in *.
  assert (Hl : heap w' !! S (length (heap w)) = Some ((λ a, F64.div a n) <$> p)).
  { cbn. rewrite lookup_app_r by lia.
    by replace (S (length (heap w)) - length (heap w)) with 1 by lia. }
  assert (Hx' : heap w' !! x = Some xs) by by apply lookup_app_l_Some.
  exists (S (length (heap w))), w', ((λ a, F64.div a n) <$> p).
  split; [done|]. split; [done|]. split.
  - by rewrite (call_returned C density norm_const HC w' x xs lo hi n).
  - rewrite (call_run C density norm_const w' x xs lo hi n HC Hself Hx').
    by apply lookup_app_l_Some.
Qed.

Lemma call_twice_same_witness :
  let w := snd (construct ProbDistFunc F64.zero F64.two true [[F64.half; F64.five_halves]]) in
  ∃ l w' out,
    __call__ ProbDistFunc 0 w = (Ok l, w') ∧
    heap w' !! l = Some out ∧
    returned (__call__ ProbDistFunc 0) w' = Some out ∧
    heap (snd (__call__ ProbDistFunc 0 w')) !! l = Some out.
Proof.
  apply (call_twice_same ProbDistFunc uniform_density uniform_norm _ 0
           [F64.half; F64.five_halves] F64.zero F64.two F64.two base_class);
    by vm_compute.
Defined.

Lemma nan_inside (lo hi xi : spec_float) :
  F64.is_nan xi = true → outside lo hi xi = false.
Proof. by destruct xi, lo, hi. Qed.

(** X2: a NaN in the input is never masked, whatever the bounds: the
    result there is [prob(x)[i]] divided by the stored constant. *)
Theorem nan_input_not_masked (C : klass) density norm_const (w : world)
    (x : loc) (xs : list spec_float) (lo hi n : spec_float) (i : nat)
    (xi : spec_float) :
  Implements C density norm_const →
  self_is w lo hi n →
  heap w !! x = Some xs →
  xs !! i = Some xi →
  F64.is_nan xi = true →
  ∃ out pi,
    returned (__call__ C x) w = Some out ∧
    density (attrs w) xs !! i = Some pi ∧
    out !! i = Some (F64.div pi n).
Proof.
  intros HC Hself Hx Hi Hnan.
  destruct (call_returned_elem C density norm_const HC w x xs lo hi n i xi)
    as (out & pi & Hret & Hpi & Hout_i); try done.
  exists out, pi. split_and!; try done.
  rewrite Hout_i. unfold mask_elem. by rewrite nan_inside.
Qed.

Lemma nan_input_not_masked_witness :
  let xs := [F64.nan] in
  let w := snd (construct ProbDistFunc F64.zero F64.two true [xs]) in
  ∃ out pi,
    returned (__call__ ProbDistFunc 0) w = Some out ∧
    uniform_density (attrs w) xs !! 0 = Some pi ∧
    out !! 0 = Some (F64.div pi F64.two).
Proof.
  apply (nan_input_not_masked ProbDistFunc uniform_density uniform_norm _ 0
           [F64.nan] F64.zero F64.two F64.two 0 F64.nan base_class);
    by vm_compute.
Defined.

Lemma open_bounds_inside (lo hi xi : spec_float) :
  open_below lo = true → open_above hi = true → outside lo hi xi = false.
Proof. by destruct lo as [| [] | |], hi as [| [] | |], xi as [| [] | | [] ? ?]. Qed.

(** X3: with a lower bound of minus infinity or NaN and an upper bound
    of plus infinity or NaN nothing is masked: the whole result is
    [prob(x)] divided by the stored constant. *)
Theorem open_bounds_mask_nothing (C : klass) density norm_const (w : world)
    (x : loc) (xs : list spec_float) (lo hi n : spec_float) :
  Implements C density norm_const →
  self_is w lo hi n →
  heap w !! x = Some xs →
  open_below lo = true →
  open_above hi = true →
  returned (__call__ C x) w
  = Some ((λ pi, F64.div pi n) <$> density (attrs w) xs).
Proof.
  intros HC Hself Hx Hlo Hhi.
  rewrite (call_returned C density norm_const HC w x xs lo hi n) by done.
  do 2 f_equal. apply list_eq. intros i. rewrite lookup_zip_with.
  destruct (xs !! i) as [xi|] eqn:Hi; cbn.
  - destruct (density (attrs w) xs !! i) as [pi|]; [|done]. cbn.
    unfold mask_elem. by rewrite open_bounds_inside.
  - symmetry. apply lookup_ge_None.
    rewrite (density_length _ _ _ HC). by apply lookup_ge_None.
Qed.

Lemma open_bounds_mask_nothing_witness :
  let xs := [F64.half; F64.infinity; F64.nan] in
  let w := snd (construct ProbDistFunc F64.neg_infinity F64.infinity false [xs]) in
  returned (__call__ ProbDistFunc 0) w
  = Some ((λ pi, F64.div pi F64.one) <$> uniform_density (attrs w) xs).
Proof.
  apply (open_bounds_mask_nothing ProbDistFunc uniform_density uniform_norm _ 0
           [F64.half; F64.infinity; F64.nan] F64.neg_infinity F64.infinity F64.one
           base_class);
    by vm_compute.
Defined.

(** X4: when [prob] returns a new array whose length is not the
    input's, the call on an input that is not empty raises
    [IndexError] at the masked assignment, the input array and the
    attributes being as before; on an empty input the mask is empty,
    nothing is assigned and the call returns [prob]'s array divided by
    the stored constant. *)
Theorem wrong_length_raises (C : klass) (w : world) (x : loc)
    (xs p : list spec_float) (lo hi n : spec_float) :
  self_is w lo hi n →
  heap w !! x = Some xs →
  prob C x w = alloc p w →
  length p ≠ length xs →
  (xs ≠ [] →
   raised (__call__ C x) w = Some IndexError ∧
   heap (snd (__call__ C x w)) !! x = Some xs ∧
   attrs (snd (__call__ C x w)) = attrs w) ∧
  (xs = [] →
   returned (__call__ C x) w = Some ((λ a, F64.div a n) <$> p)).
Proof.
  intros (Hlo & Hhi & Hn) Hx Hprob Hlen.
  set (w1 := with_heap w (heap w ++ [p])).
  assert (Hx1 : heap w1 !! x = Some xs) by by apply lookup_app_l_Some.
  assert (Hp1 : heap w1 !! length (heap w) = Some p) by by apply list_lookup_middle.
  assert (Hmask : length (np_logical_or ((λ a, F64.lt a lo) <$> xs)
                            ((λ a, F64.gt a hi) <$> xs)) = length xs).
  { unfold np_logical_or. rewrite length_zip_with, !length_fmap. lia. }
  assert (Hrun : __call__ C x w =
    (np_setitem_mask (length (heap w))
       (np_logical_or ((λ a, F64.lt a lo) <$> xs) ((λ a, F64.gt a hi) <$> xs))
       F64.zero;;
     n ← getattr "norm"; np_true_divide (length (heap w)) n) w1).
  { unfold __call__.
    rewrite (bind_run _ _ w w1 (length (heap w))) by done.
    rewrite (bind_run _ _ w1 w1 lo) by by apply getattr_run.
    rewrite (bind_run _ _ w1 w1 _)
      by (unfold np_less; by rewrite (bind_run _ _ w1 w1 xs) by by apply load_run).
    rewrite (bind_run _ _ w1 w1 hi) by by apply getattr_run.
    by rewrite (bind_run _ _ w1 w1 _)
      by (unfold np_greater; by rewrite (bind_run _ _ w1 w1 xs) by by apply load_run). }
  split.
  - intros Hne.
    assert (Hraise : __call__ C x w = (Raise IndexError, w1)).
    { rewrite Hrun. apply bind_raise. unfold np_setitem_mask.
      rewrite (bind_run _ _ w1 w1 p) by by apply load_run.
      rewrite decide_False by (rewrite Hmask; lia).
      rewrite decide_False; [done|]. rewrite Hmask. by destruct xs. }
    unfold raised. by rewrite Hraise.
  - intros ->.
    assert (Hret : __call__ C x w =
      (Ok (S (length (heap w))),
       with_heap w (heap w ++ [p; (λ a, F64.div a n) <$> p]))).
    { rewrite Hrun. rewrite (bind_run _ _ w1 w1 tt).
      2:{ unfold np_setitem_mask.
          rewrite (bind_run _ _ w1 w1 p) by by apply load_run.
          by rewrite decide_False, decide_True by (cbn in *; lia || done). }
      rewrite (bind_run _ _ w1 w1 n) by by apply getattr_run.
      unfold np_true_divide.
      rewrite (bind_run _ _ w1 w1 p) by by apply load_run.
      unfold alloc, w1, with_heap. cbn.
      rewrite length_app. cbn. rewrite <- app_assoc. cbn.
      do 2 f_equal. lia. }
    unfold returned. rewrite Hret. cbn.
    rewrite lookup_app_r by lia.
    by replace (S (length (heap w)) - length (heap w)) with 1 by lia.
Qed.

Lemma wrong_length_raises_witness :
  let w := snd (construct Short F64.zero F64.two false [[F64.half]]) in
  ([F64.half] ≠ [] →
   raised (__call__ Short 0) w = Some IndexError ∧
   heap (snd (__call__ Short 0 w)) !! 0 = Some [F64.half] ∧
   attrs (snd (__call__ Short 0 w)) = attrs w) ∧
  ([F64.half] = [] →
   returned (__call__ Short 0) w = Some ((λ a, F64.div a F64.one) <$> [])).
Proof.
  apply (wrong_length_raises Short _ 0 [F64.half] [] F64.zero F64.two F64.one);
    by vm_compute.
Defined.

(** The empty input at work: the mask is empty, [prob]'s one value
    stays and is returned. *)
Example empty_input_longer_prob_returns :
  let w := snd (construct OneValue F64.zero F64.two false [[]]) in
  returned (__call__ OneValue 0) w = Some [F64.one].
Proof. by vm_compute. Qed.

Section Base.

(** The base class's result, element by element. *)
Lemma base_call_returned (w : world) (x : loc) (xs : list spec_float)
    (lo hi n : spec_float) :
  self_is w lo hi n →
  heap w !! x = Some xs →
  returned (__call__ ProbDistFunc x) w
  = Some ((λ xi, F64.div (mask_elem lo hi xi F64.one) n) <$> xs).
Proof.
  intros Hself Hx.
  rewrite (call_returned _ _ _ base_class w x xs lo hi n) by done.
  f_equal. unfold uniform_density. apply list_eq. intros i.
  rewrite !list_lookup_fmap, lookup_zip_with.
  destruct (xs !! i) as [xi|] eqn:Hi; [|done]. cbn.
  rewrite lookup_replicate_2; [done|]. by apply lookup_lt_Some with xi.
Qed.

(** The instance [__init__] makes. *)
Lemma constructed_self (C : klass) density norm_const
    (pdf_min pdf_max : spec_float) (normalized : bool)
    (h : list (list spec_float)) :
  Implements C density norm_const →
  let w := snd (construct C pdf_min pdf_max normalized h) in
  self_is w pdf_min pdf_max
    (if normalized
     then norm_const (<["max":=pdf_max]> (<["min":=pdf_min]> ∅))
     else F64.one) ∧
  heap w = h.
Proof.
  intros HC w. unfold w. rewrite (construct_run C density norm_const HC).
  cbn [snd heap]. split; [|done].
  unfold self_is; cbn [attrs]. split_and!; by simplify_map_eq.
Qed.

Lemma uniform_norm_at (pdf_min pdf_max : spec_float) :
  uniform_norm (<["max":=pdf_max]> (<["min":=pdf_min]> ∅)) = F64.sub pdf_max pdf_min.
Proof. unfold uniform_norm. by simplify_map_eq. Qed.

Lemma mask_div_one (lo hi xi : spec_float) :
  F64.div (mask_elem lo hi xi F64.one) F64.one = mask_elem lo hi xi F64.one.
Proof. unfold mask_elem. by destruct (outside lo hi xi). Qed.

End Base.

(** X5: without normalization the base class is the indicator of the
    interval: the result is exactly 1 at every element that is not
    outside the bounds and exactly 0 at every element that is. *)
Theorem unnormalized_base_is_indicator (pdf_min pdf_max : spec_float)
    (h : list (list spec_float)) (x : loc) (xs : list spec_float) :
  h !! x = Some xs →
  returned (__call__ ProbDistFunc x)
    (snd (construct ProbDistFunc pdf_min pdf_max false h))
  = Some ((λ xi, if outside pdf_min pdf_max xi then F64.zero else F64.one) <$> xs).
Proof.
  intros Hx.
  destruct (constructed_self ProbDistFunc _ _ pdf_min pdf_max false h base_class)
    as [Hself Hh].
  rewrite (base_call_returned _ x xs pdf_min pdf_max F64.one Hself) by by rewrite Hh.
  f_equal. apply list_fmap_ext. intros i xi _. apply mask_div_one.
Qed.

Lemma unnormalized_base_is_indicator_witness :
  let xs := [F64.half; F64.five_halves] in
  returned (__call__ ProbDistFunc 0)
    (snd (construct ProbDistFunc F64.zero F64.two false [xs]))
  = Some ((λ xi, if outside F64.zero F64.two xi then F64.zero else F64.one) <$> xs).
Proof.
  apply (unnormalized_base_is_indicator F64.zero F64.two
           [[F64.half; F64.five_halves]] 0 [F64.half; F64.five_halves]).
  reflexivity.
Defined.

(** X6: for the base class the normalized result is the unnormalized
    result of the same bounds and input, divided element by element by
    [pdf_max - pdf_min]. *)
Theorem normalized_base_is_scaled (pdf_min pdf_max : spec_float)
    (h : list (list spec_float)) (x : loc) (xs : list spec_float) :
  h !! x = Some xs →
  returned (__call__ ProbDistFunc x)
    (snd (construct ProbDistFunc pdf_min pdf_max true h))
  = fmap (M := list) (λ v, F64.div v (F64.sub pdf_max pdf_min)) <$>
    returned (__call__ ProbDistFunc x)
      (snd (construct ProbDistFunc pdf_min pdf_max false h)).
Proof.
  intros Hx.
  destruct (constructed_self ProbDistFunc _ _ pdf_min pdf_max true h base_class)
    as [Hself Hh].
  destruct (constructed_self ProbDistFunc _ _ pdf_min pdf_max false h base_class)
    as [Hself' Hh'].
  cbn [snd] in *. rewrite uniform_norm_at in Hself.
  rewrite (base_call_returned _ x xs _ _ _ Hself) by by rewrite Hh.
  rewrite (base_call_returned _ x xs _ _ _ Hself') by by rewrite Hh'.
  cbn. f_equal. rewrite <- list_fmap_compose.
  apply list_fmap_ext. intros i xi _. cbn. by rewrite mask_div_one.
Qed.

Lemma normalized_base_is_scaled_witness :
  let xs := [F64.half; F64.five_halves] in
  returned (__call__ ProbDistFunc 0)
    (snd (construct ProbDistFunc F64.zero F64.two true [xs]))
  = fmap (M := list) (λ v, F64.div v (F64.sub F64.two F64.zero)) <$>
    returned (__call__ ProbDistFunc 0)
      (snd (construct ProbDistFunc F64.zero F64.two false [xs])).
Proof.
  apply (normalized_base_is_scaled F64.zero F64.two
           [[F64.half; F64.five_halves]] 0 [F64.half; F64.five_halves]).
  reflexivity.
Defined.

(** The quotient of a value that is not negative by a positive one is
    not negative. *)
Lemma div_not_negative (a n : spec_float) :
  F64.lt a F64.zero = false →
  F64.lt F64.zero n = true →
  F64.lt (F64.div a n) F64.zero = false.
Proof.
  destruct a as [[]|[]| |[] ma ea], n as [[]|[]| |[] mn en]; try done.
  intros _ _. unfold F64.div, SFdiv, binary_round_aux. cbn [xorb].
  repeat case_match; done.
Qed.

(** X7: when no value [prob] returns is negative and the stored
    constant is positive, no element of the result is negative. *)
Theorem result_not_negative (C : klass) density norm_const (w : world)
    (x : loc) (xs : list spec_float) (lo hi n : spec_float) :
  Implements C density norm_const →
  self_is w lo hi n →
  heap w !! x = Some xs →
  Forall (λ pi, F64.lt pi F64.zero = false) (density (attrs w) xs) →
  F64.lt F64.zero n = true →
  ∃ out,
    returned (__call__ C x) w = Some out ∧
    Forall (λ v, F64.lt v F64.zero = false) out.
Proof.
  intros HC Hself Hx Hpos Hn. eexists.
  split; [by apply (call_returned C density norm_const HC)|].
  apply Forall_fmap, Forall_lookup_2. intros i v Hv. cbn.
  apply lookup_zip_with_Some in Hv as (xi & pi & -> & Hxi & Hpi).
  apply div_not_negative; [|done]. unfold mask_elem.
  destruct (outside lo hi xi); [done|].
  by apply (Forall_lookup_1 _ _ _ _ Hpos Hpi).
Qed.

Lemma result_not_negative_witness :
  let w := snd (construct ProbDistFunc F64.zero F64.two true [[F64.half; F64.five_halves]]) in
  ∃ out,
    returned (__call__ ProbDistFunc 0) w = Some out ∧
    Forall (λ v, F64.lt v F64.zero = false) out.
Proof.
  apply (result_not_negative ProbDistFunc uniform_density uniform_norm _ 0
           [F64.half; F64.five_halves] F64.zero F64.two F64.two base_class);
    try by vm_compute.
  repeat constructor.
Defined.

(** X8: after the bounds of an instance are reassigned, a call masks
    with the new bounds and still divides by the constant stored at
    construction. *)
Theorem call_after_rebinding (C : klass) density norm_const
    (pdf_min pdf_max new_min new_max : spec_float) (normalized : bool)
    (h : list (list spec_float)) (x : loc) (xs : list spec_float) :
  Implements C density norm_const →
  h !! x = Some xs →
  let made := snd (construct C pdf_min pdf_max normalized h) in
  let w := after C [SetMin new_min; SetMax new_max] made in
  ∃ n,
    attrs made !! "norm" = Some n ∧
    returned (__call__ C x) w
    = Some ((λ a, F64.div a n) <$>
            zip_with (mask_elem new_min new_max) xs (density (attrs w) xs)).
Proof.
  intros HC Hx made w.
  destruct (constructed_self C density norm_const pdf_min pdf_max normalized h HC)
    as [(Hlo & Hhi & Hn) Hh]. fold made in Hlo, Hhi, Hn, Hh.
  eexists. split; [exact Hn|].
  apply (call_returned C density norm_const HC).
  - unfold w, self_is. cbn. split_and!; by simplify_map_eq.
  - unfold w. cbn. by rewrite Hh.
Qed.

Lemma call_after_rebinding_witness :
  let xs := [F64.half; F64.three_halves] in
  let made := snd (construct ProbDistFunc F64.zero F64.two true [xs]) in
  let w := after ProbDistFunc [SetMin F64.one; SetMax F64.five_halves] made in
  ∃ n,
    attrs made !! "norm" = Some n ∧
    returned (__call__ ProbDistFunc 0) w
    = Some ((λ a, F64.div a n) <$>
            zip_with (mask_elem F64.one F64.five_halves) xs
              (uniform_density (attrs w) xs)).
Proof.
  apply (call_after_rebinding ProbDistFunc uniform_density uniform_norm
           F64.zero F64.two F64.one F64.five_halves true
           [[F64.half; F64.three_halves]] 0 [F64.half; F64.three_halves] base_class).
  reflexivity.
Defined.

Section Attributes.

Context (C : klass)
  (density : gmap string spec_float → list spec_float → list spec_float)
  (norm_const : gmap string spec_float → spec_float)
  (HC : Implements C density norm_const).

Lemma perform_dom (a : action) (w : world) :
  "min" ∈ dom (attrs w) → "max" ∈ dom (attrs w) →
  dom (attrs (snd (perform C a w))) = dom (attrs w).
Proof.
  intros Hmin Hmax. destruct a as [v|v|x]; cbn.
  - rewrite dom_insert_L. apply subseteq_union_1_L. by apply singleton_subseteq_l.
  - rewrite dom_insert_L. apply subseteq_union_1_L. by apply singleton_subseteq_l.
  - destruct (call_frame C density norm_const HC x w) as [Ha _].
    unfold mbind, M_bind, mret, M_ret.
    destruct (__call__ C x w) as [[l|e] w']; cbn in *; by rewrite Ha.
Qed.

Lemma after_dom (acts : list action) (w : world) :
  "min" ∈ dom (attrs w) → "max" ∈ dom (attrs w) →
  dom (attrs (after C acts w)) = dom (attrs w).
Proof.
  revert w. induction acts as [|a acts IH]; intros w Hmin Hmax; [done|]. cbn.
  pose proof (perform_dom a w Hmin Hmax) as Hdom.
  rewrite IH by by rewrite Hdom. done.
Qed.

End Attributes.

(** X9: an instance has exactly the attributes [min], [max] and
    [norm], after its construction and after any assignments to its
    bounds and calls; so on it [obj.__call__(x)] and [obj(x)] always do
    the same. *)
Theorem instance_attributes (C : klass) density norm_const
    (pdf_min pdf_max : spec_float) (normalized : bool)
    (h : list (list spec_float)) (acts : list action) :
  Implements C density norm_const →
  let w := after C acts (snd (construct C pdf_min pdf_max normalized h)) in
  dom (attrs w) = ({["min"; "max"; "norm"]} : gset string) ∧
  ∀ x, call_by_name C x w = call_operator C x w.
Proof.
  intros HC w.
  assert (Hdom : dom (attrs w) = ({["min"; "max"; "norm"]} : gset string)).
  { unfold w. rewrite (construct_run C density norm_const HC). cbn [snd].
    rewrite (after_dom C density norm_const HC); cbn [attrs].
    - rewrite !dom_insert_L, dom_empty_L. set_unfold. tauto.
    - apply elem_of_dom. by simplify_map_eq.
    - apply elem_of_dom. by simplify_map_eq. }
  split; [done|]. intros x. unfold call_by_name, call_operator.
  assert (Hno : attrs w !! "__call__" = None).
  { apply not_elem_of_dom. rewrite Hdom. set_unfold. intuition discriminate. }
  by rewrite Hno.
Qed.

Lemma instance_attributes_witness :
  let w := after ProbDistFunc [SetMax F64.one; Call 0]
             (snd (construct ProbDistFunc F64.zero F64.two true [[F64.half]])) in
  dom (attrs w) = ({["min"; "max"; "norm"]} : gset string) ∧
  ∀ x, call_by_name ProbDistFunc x w = call_operator ProbDistFunc x w.
Proof.
  exact (instance_attributes ProbDistFunc uniform_density uniform_norm
           F64.zero F64.two true [[F64.half]] [SetMax F64.one; Call 0] base_class).
Defined.

(** X10: the base class evaluates element by element: the result on
    the concatenation of two arrays is the concatenation of the results
    on each. *)
Theorem base_call_concatenation (w : world) (x y z : loc)
    (xs ys : list spec_float) (lo hi n : spec_float) :
  self_is w lo hi n →
  heap w !! x = Some xs →
  heap w !! y = Some ys →
  heap w !! z = Some (xs ++ ys) →
  ∃ out_x out_y,
    returned (__call__ ProbDistFunc x) w = Some out_x ∧
    returned (__call__ ProbDistFunc y) w = Some out_y ∧
    returned (__call__ ProbDistFunc z) w = Some (out_x ++ out_y).
Proof.
  intros Hself Hx Hy Hz. eexists _, _.
  rewrite (base_call_returned w x xs lo hi n), (base_call_returned w y ys lo hi n),
    (base_call_returned w z (xs ++ ys) lo hi n) by done.
  by rewrite fmap_app.
Qed.

Lemma base_call_concatenation_witness :
  let w := snd (construct ProbDistFunc F64.zero F64.two true
                  [[F64.half]; [F64.five_halves]; [F64.half; F64.five_halves]]) in
  ∃ out_x out_y,
    returned (__call__ ProbDistFunc 0) w = Some out_x ∧
    returned (__call__ ProbDistFunc 1) w = Some out_y ∧
    returned (__call__ ProbDistFunc 2) w = Some (out_x ++ out_y).
Proof.
  apply (base_call_concatenation _ 0 1 2 [F64.half] [F64.five_halves]
           F64.zero F64.two F64.two);
    by vm_compute.
Defined.

Section Reachable.

Context (C : klass)
  (density : gmap string spec_float → list spec_float → list spec_float)
  (norm_const : gmap string spec_float → spec_float)
  (HC : Implements C density norm_const).

(** A call whose argument is no array raises in [prob] and changes
    nothing. *)
Lemma call_no_array (x : loc) (w : world) :
  heap w !! x = None → __call__ C x w = (Raise (AttributeError "shape"), w).
Proof.
  intros Hx. unfold __call__, mbind at 1, M_bind at 1.
  rewrite (prob_contract _ _ _ HC). unfold mbind, M_bind, load. by rewrite Hx.
Qed.

Lemma perform_initialized (a : action) (w : world) :
  initialized w → initialized (snd (perform C a w)).
Proof.
  intros (Hmin & Hmax & Hnorm). destruct a as [v|v|x]; cbn.
  - unfold initialized; cbn. split_and!; by simplify_map_eq.
  - unfold initialized; cbn. split_and!; by simplify_map_eq.
  - destruct (call_frame C density norm_const HC x w) as [Ha _].
    unfold mbind, M_bind, mret, M_ret.
    destruct (__call__ C x w) as [[l|e] w']; cbn in *;
      unfold initialized; by rewrite Ha.
Qed.

Lemma perform_prefix (a : action) (w : world) :
  initialized w → heap w `prefix_of` heap (snd (perform C a w)).
Proof.
  intros ([lo Hlo] & [hi Hhi] & [n Hn]). destruct a as [v|v|x]; cbn; [done..|].
  unfold mbind, M_bind, mret, M_ret.
  destruct (heap w !! x) as [xs|] eqn:Hx.
  - rewrite (call_run C density norm_const w x xs lo hi n HC) by done.
    cbn. by eexists.
  - by rewrite call_no_array.
Qed.

Lemma after_initialized (acts : list action) (w : world) :
  initialized w → initialized (after C acts w).
Proof.
  revert w. induction acts as [|a acts IH]; intros w Hw; [done|].
  cbn. by apply IH, perform_initialized.
Qed.

Lemma after_prefix (acts : list action) (w : world) :
  initialized w → heap w `prefix_of` heap (after C acts w).
Proof.
  revert w. induction acts as [|a acts IH]; intros w Hw; [done|]. cbn.
  transitivity (heap (snd (perform C a w))).
  - by apply perform_prefix.
  - by apply IH, perform_initialized.
Qed.

Lemma construct_initialized (pdf_min pdf_max : spec_float) (normalized : bool)
    (h : list (list spec_float)) :
  initialized (snd (construct C pdf_min pdf_max normalized h)).
Proof.
  destruct (constructed_self C density norm_const pdf_min pdf_max normalized h HC)
    as [(Hlo & Hhi & Hn) _].
  unfold initialized. by rewrite Hlo, Hhi, Hn.
Qed.

End Reachable.

(** X11: an instance stays usable: after its construction and any
    assignments to its bounds and calls, also calls that raised, a call
    on an array returns an array of that array's length. *)
Theorem call_returns_after_anything (C : klass) density norm_const
    (pdf_min pdf_max : spec_float) (normalized : bool)
    (h : list (list spec_float)) (acts : list action) (x : loc)
    (xs : list spec_float) :
  Implements C density norm_const →
  let w := after C acts (snd (construct C pdf_min pdf_max normalized h)) in
  heap w !! x = Some xs →
  ∃ out,
    returned (__call__ C x) w = Some out ∧
    length out = length xs.
Proof.
  intros HC w Hx.
  destruct (after_initialized C density norm_const HC acts _
              (construct_initialized C density norm_const HC
                 pdf_min pdf_max normalized h))
    as ([lo Hlo] & [hi Hhi] & [n Hn]). fold w in Hlo, Hhi, Hn.
  eexists. split.
  - by apply (call_returned C density norm_const HC w x xs lo hi n).
  - rewrite length_fmap, length_zip_with, (density_length _ _ _ HC). lia.
Qed.

Lemma call_returns_after_anything_witness :
  let w := after ProbDistFunc [Call 7; SetMin F64.one; Call 0]
             (snd (construct ProbDistFunc F64.zero F64.two true [[F64.half; F64.two]])) in
  ∃ out,
    returned (__call__ ProbDistFunc 0) w = Some out ∧
    length out = length [F64.half; F64.two].
Proof.
  apply (call_returns_after_anything ProbDistFunc uniform_density uniform_norm
           F64.zero F64.two true [[F64.half; F64.two]]
           [Call 7; SetMin F64.one; Call 0] 0 [F64.half; F64.two] base_class).
  by vm_compute.
Defined.

(** X12: no array that exists when an instance is constructed is ever
    changed by it: after the construction and any assignments to the
    bounds and calls, every such array is at its address with its
    values. *)
Theorem arrays_never_changed (C : klass) density norm_const
    (pdf_min pdf_max : spec_float) (normalized : bool)
    (h : list (list spec_float)) (acts : list action) (x : loc)
    (xs : list spec_float) :
  Implements C density norm_const →
  h !! x = Some xs →
  heap (after C acts (snd (construct C pdf_min pdf_max normalized h))) !! x
  = Some xs.
Proof.
  intros HC Hx.
  destruct (after_prefix C density norm_const HC acts _
              (construct_initialized C density norm_const HC
                 pdf_min pdf_max normalized h)) as [ext ->].
  destruct (constructed_self C density norm_const pdf_min pdf_max normalized h HC)
    as [_ ->].
  by apply lookup_app_l_Some.
Qed.

Lemma arrays_never_changed_witness :
  heap (after ProbDistFunc [Call 0; SetMax F64.one; Call 0; Call 1]
          (snd (construct ProbDistFunc F64.zero F64.two true [[F64.half; F64.two]])))
    !! 0
  = Some [F64.half; F64.two].
Proof.
  apply (arrays_never_changed ProbDistFunc uniform_density uniform_norm
           F64.zero F64.two true [[F64.half; F64.two]]
           [Call 0; SetMax F64.one; Call 0; Call 1] 0 [F64.half; F64.two] base_class).
  reflexivity.
Defined.

(** X13: the base class's [normalization()] reads the bounds as they
    are now and writes nothing: after the bounds of an instance are
    reassigned it returns the difference of the new bounds, and the
    stored constant is still the one of the construction. *)
Theorem normalization_reads_current_bounds
    (pdf_min pdf_max new_min new_max : spec_float) (normalized : bool)
    (h : list (list spec_float)) :
  let made := snd (construct ProbDistFunc pdf_min pdf_max normalized h) in
  let w := after ProbDistFunc [SetMin new_min; SetMax new_max] made in
  normalization ProbDistFunc w = (Ok (F64.sub new_max new_min), w) ∧
  attrs w !! "norm"
  = Some (if normalized then F64.sub pdf_max pdf_min else F64.one).
Proof.
  intros made w.
  destruct (constructed_self ProbDistFunc _ _ pdf_min pdf_max normalized h base_class)
    as [(Hlo & Hhi & Hn) _]. fold made in Hlo, Hhi, Hn.
  rewrite uniform_norm_at in Hn.
  assert (Hmin : attrs w !! "min" = Some new_min) by (unfold w; cbn; by simplify_map_eq).
  assert (Hmax : attrs w !! "max" = Some new_max) by (unfold w; cbn; by simplify_map_eq).
  split.
  - cbn [normalization ProbDistFunc].
    rewrite (bind_run _ _ w w new_max) by by apply getattr_run.
    by rewrite (bind_run _ _ w w new_min) by by apply getattr_run.
  - unfold w; cbn. by simplify_map_eq.
Qed.

(** A finite double minus itself is a zero. *)
Lemma sub_self_zero (a : spec_float) :
  F64.is_finite a = true → F64.is_zero (F64.sub a a) = true.
Proof.
  destruct a as [[]|[]| |s m e]; try done. intros _.
  unfold F64.sub, SFsub. by rewrite Z.sub_diag.
Qed.

(** X14: a normalized base-class instance whose two bounds are the
    same finite number stores a zero as its constant, and every element
    of every result is an infinity or NaN. *)
Theorem point_interval_not_finite (a : spec_float)
    (h : list (list spec_float)) (x : loc) (xs : list spec_float) :
  F64.is_finite a = true →
  h !! x = Some xs →
  let w := snd (construct ProbDistFunc a a true h) in
  ∃ n out,
    attrs w !! "norm" = Some n ∧
    F64.is_zero n = true ∧
    returned (__call__ ProbDistFunc x) w = Some out ∧
    Forall (λ v, F64.is_finite v = false) out.
Proof.
  intros Ha Hx w.
  destruct (constructed_self ProbDistFunc _ _ a a true h base_class)
    as [Hself Hh]. fold w in Hself, Hh. rewrite uniform_norm_at in Hself.
  eexists _, _. split; [apply Hself|]. split; [by apply sub_self_zero|].
  split; [apply (base_call_returned w x xs a a _ Hself); by rewrite Hh|].
  apply Forall_fmap, Forall_forall. intros xi _. cbn.
  by apply div_by_zero, sub_self_zero.
Qed.

Lemma point_interval_not_finite_witness :
  let w := snd (construct ProbDistFunc F64.one F64.one true [[F64.one; F64.two]]) in
  ∃ n out,
    attrs w !! "norm" = Some n ∧
    F64.is_zero n = true ∧
    returned (__call__ ProbDistFunc 0) w = Some out ∧
    Forall (λ v, F64.is_finite v = false) out.
Proof.
  apply (point_interval_not_finite F64.one [[F64.one; F64.two]] 0 [F64.one; F64.two]);
    reflexivity.
Defined.
